(** * ClipFlux backend: upload handoff, response envelope and user model

    A shallow embedding of three pieces of the ClipFlux (videotube) backend:

    - [src/utils/cloudinary.js]: [uploadToCloudinary], the hand-off of a file
      staged on local disk by multer to the Cloudinary store;
    - [src/utils/ApiResponse.js]: the [ApiResponse] envelope;
    - the user model: the [pre("save")] password hook and the two JWT
      issuing methods [generateAccessToken] and [generateRefreshToken].

    JavaScript values are a small inductive type.  The asynchronous upload
    function is written in an effect monad that threads the local disk,
    records every call that leaves the function (upload, console.log,
    fs.unlinkSync) and carries exceptions, so that [try]/[catch] can be
    written as in the source. *)

From stdpp Require Import base gmap strings list.
From Stdlib Require Import ZArith.

Local Open Scope string_scope.
Local Open Scope Z_scope.

(** ** JavaScript values *)

#[local] Unset Elimination Schemes.
Inductive jsval : Type :=
| JUndefined
| JNull
| JBool (b : bool)
| JNum (n : Z)
| JStr (s : string)
| JObj (props : list (string * jsval)).
#[local] Set Elimination Schemes.

(** [!v] is [negb (truthy v)]: undefined, null, false, 0 and the empty string
    are the falsy values (NaN is not a [JNum]). *)
Definition truthy (v : jsval) : bool :=
  match v with
  | JUndefined | JNull => false
  | JBool b => b
  | JNum n => negb (n =? 0)
  | JStr s => negb (String.eqb s "")
  | JObj _ => true
  end.

Fixpoint own_property (name : string) (props : list (string * jsval)) : option jsval :=
  match props with
  | [] => None
  | (k, v) :: rest => if String.eqb k name then Some v else own_property name rest
  end.

(** What can be thrown in the code modelled here. *)
Inductive exn : Type :=
| UploadRejected (reason : jsval)
| TypeError (msg : string)
| ENOENT (path : string)
| ERR_INVALID_ARG_TYPE (arg : jsval).

Inductive completion (A : Type) : Type :=
| Normal (a : A)
| Abrupt (e : exn).
Arguments Normal {A} a.
Arguments Abrupt {A} e.

(** ** The upload hand-off ([src/utils/cloudinary.js]) *)

Module Cloudinary.

(** Calls that leave the function, in the order they are made. *)
Inductive event : Type :=
| EvUpload (file options : jsval)
| EvLog (args : list jsval)
| EvUnlink (path : jsval).

(** How the promise of [cloudinary.uploader.upload] settles. *)
Inductive settled : Type :=
| Fulfilled (response : jsval)
| Rejected (reason : jsval).

(** The world outside the function: the Cloudinary account, whose answer may
    depend on the file, the options and what is on disk, and whatever else
    happens to the local disk while the upload is awaited. *)
Record remote : Type := {
  upload : jsval -> jsval -> gset string -> settled;
  meanwhile : gset string -> gset string
}.

Record outcome (A : Type) : Type := {
  result : completion A;
  disk_after : gset string;
  events : list event
}.
Arguments result {A} o.
Arguments disk_after {A} o.
Arguments events {A} o.

(** A computation runs from the set of files on the local disk. *)
Definition M (A : Type) : Type := gset string -> outcome A.

Definition ret {A} (a : A) : M A :=
  fun d => {| result := Normal a; disk_after := d; events := [] |}.

Definition throw {A} (e : exn) : M A :=
  fun d => {| result := Abrupt e; disk_after := d; events := [] |}.

Definition bind {A B} (m : M A) (k : A -> M B) : M B :=
  fun d =>
    let o := m d in
    match result o with
    | Normal a =>
        let o' := k a (disk_after o) in
        {| result := result o';
           disk_after := disk_after o';
           events := events o ++ events o' |}
    | Abrupt e =>
        {| result := Abrupt e; disk_after := disk_after o; events := events o |}
    end.

Definition try_catch {A} (body : M A) (handler : exn -> M A) : M A :=
  fun d =>
    let o := body d in
    match result o with
    | Normal a => o
    | Abrupt e =>
        let o' := handler e (disk_after o) in
        {| result := result o';
           disk_after := disk_after o';
           events := events o ++ events o' |}
    end.

Notation "x <- m ;; k" := (bind m (fun x => k))
  (at level 100, m at next level, right associativity).
Notation "m ;;; k" := (bind m (fun _ => k))
  (at level 100, right associativity).

(** [await cloudinary.uploader.upload(file, options)]: the call is made, the
    function is suspended, and it resumes with the response or with the
    rejection thrown. *)
Definition uploader_upload (cloud : remote) (file options : jsval) : M jsval :=
  fun d =>
    {| result := match upload cloud file options d with
                 | Fulfilled response => Normal response
                 | Rejected reason => Abrupt (UploadRejected reason)
                 end;
       disk_after := meanwhile cloud d;
       events := [EvUpload file options] |}.

(** [fs.unlinkSync(path)]: removes the file, throws ENOENT when there is
    none, and refuses a path that is not a string.  A file is identified by
    the path string as it is given (two spellings of one path are two
    entries of the disk), and the failures of a path with a NUL byte, of a
    directory and of missing permissions are not modelled. *)
Definition unlinkSync (path : jsval) : M unit :=
  fun d =>
    match path with
    | JStr p =>
        if decide (p ∈ d)
        then {| result := Normal tt; disk_after := d ∖ {[p]}; events := [EvUnlink path] |}
        else {| result := Abrupt (ENOENT p); disk_after := d; events := [EvUnlink path] |}
    | _ => {| result := Abrupt (ERR_INVALID_ARG_TYPE path); disk_after := d;
              events := [EvUnlink path] |}
    end.

Definition console_log (args : list jsval) : M unit :=
  fun d => {| result := Normal tt; disk_after := d; events := [EvLog args] |}.

(** [v.name]: a TypeError on undefined and null; a primitive has no own
    property of the names read here. *)
Definition member (v : jsval) (name : string) : M jsval :=
  match v with
  | JUndefined | JNull =>
      throw (TypeError ("Cannot read properties of undefined or null, reading " ++ name))
  | JObj props => ret (default JUndefined (own_property name props))
  | _ => ret JUndefined
  end.

Definition upload_options : jsval := JObj [("resource_type", JStr "auto")].

Definition uploadToCloudinary (cloud : remote) (localfilepath : jsval) : M jsval :=
  try_catch
    (if negb (truthy localfilepath) then ret JNull
     else
       response <- uploader_upload cloud localfilepath upload_options ;;
       url <- member response "url" ;;
       console_log [JStr "File Uploaded successfully"; url] ;;;
       ret response)
    (fun error =>
       unlinkSync localfilepath ;;;
       ret JNull).

(** The same function with [fs.unlinkSync] left open, for what holds
    whatever the file system does on a deletion: how it resolves the path,
    what it removes, which errors it raises. *)
Definition uploadToCloudinary_with (fs_unlinkSync : jsval -> M unit)
    (cloud : remote) (localfilepath : jsval) : M jsval :=
  try_catch
    (if negb (truthy localfilepath) then ret JNull
     else
       response <- uploader_upload cloud localfilepath upload_options ;;
       url <- member response "url" ;;
       console_log [JStr "File Uploaded successfully"; url] ;;;
       ret response)
    (fun error =>
       fs_unlinkSync localfilepath ;;;
       ret JNull).

(** Observations on the calls made by one invocation. *)
Definition is_unlink (ev : event) : bool :=
  match ev with EvUnlink _ => true | _ => false end.

Definition is_upload (ev : event) : bool :=
  match ev with EvUpload _ _ => true | _ => false end.

Fixpoint count (p : event -> bool) (evs : list event) : nat :=
  match evs with
  | [] => O
  | ev :: rest => if p ev then S (count p rest) else count p rest
  end.

(** A response the success path cannot read [.url] from. *)
Definition nullish (v : jsval) : bool :=
  match v with JUndefined | JNull => true | _ => false end.

(** How the upload of an invocation on [p], started on disk [d], settles. *)
Definition upload_settles (cloud : remote) (p : jsval) (d : gset string) : settled :=
  upload cloud p upload_options d.

(** The catch block is entered when the upload rejects, and also when the
    store fulfils with nothing to read [.url] from. *)
Definition enters_catch (cloud : remote) (p : jsval) (d : gset string) : bool :=
  match upload_settles cloud p d with
  | Rejected _ => true
  | Fulfilled response => nullish response
  end.

End Cloudinary.

(** ** The response envelope ([src/utils/ApiResponse.js]) *)

Module Response.

(** The fields in the order the constructor assigns them.  A status code is
    an integer. *)
Record ApiResponse : Type := {
  data : jsval;
  statuscode : Z;
  message : jsval;
  success : bool
}.

(** A default parameter value is used when the argument is [undefined],
    which is also what an omitted argument is. *)
Definition default_param (arg dflt : jsval) : jsval :=
  match arg with
  | JUndefined => dflt
  | _ => arg
  end.

(** [new ApiResponse(statuscode, data, message)] *)
Definition new_ApiResponse (statuscode : Z) (data message : jsval) : ApiResponse :=
  let message := default_param message (JStr "success") in
  {| data := data;
     statuscode := statuscode;
     message := message;
     success := statuscode <? 400 |}.

End Response.

(** ** The user model: pre-save hook and token methods *)

Module UserModel.

(** The libraries the model calls and the process environment. *)
Class Bcrypt : Type := {
  bcrypt_hash : string -> Z -> string
}.

Class Jwt : Type := {
  jwt_sign : jsval -> jsval -> jsval -> string
}.

Class ProcessEnv : Type := {
  process_env : string -> jsval
}.

(** A user document: the paths of [userSchema], the key [_id], and the paths
    mongoose has seen change since the document was loaded or last saved. *)
Record user : Type := {
  _id : string;
  username : string;
  email : string;
  fullname : string;
  avatar : string;
  coverImage : option string;
  watchHistory : list string;
  password : string;
  refreshToken : option string;
  modifiedPaths : gset string
}.

(** The [id] virtual of a document is its [_id] as a string. *)
Definition id (this : user) : string := _id this.

Definition isModified (this : user) (path : string) : bool :=
  bool_decide (path ∈ modifiedPaths this).

Definition set_password (this : user) (value : string) : user :=
  {| _id := _id this;
     username := username this;
     email := email this;
     fullname := fullname this;
     avatar := avatar this;
     coverImage := coverImage this;
     watchHistory := watchHistory this;
     password := value;
     refreshToken := refreshToken this;
     modifiedPaths := modifiedPaths this |}.

(** What the hook does besides assigning [this.password]. *)
Inductive hook_event : Type :=
| EvHash (plain : string) (rounds : Z)
| EvNext.

Section Hook.
Context `{Bcrypt}.

(** [userSchema.pre("save", async function (next) { ... })] *)
Definition pre_save (this : user) : user * list hook_event :=
  if negb (isModified this "password") then (this, [EvNext])
  else
    let hashed := bcrypt_hash (password this) 10 in
    (set_password this hashed, [EvHash (password this) 10; EvNext]).

Definition hash_calls (evs : list hook_event) : list (string * Z) :=
  flat_map (fun ev => match ev with EvHash p r => [(p, r)] | EvNext => [] end) evs.
End Hook.

Section Tokens.
Context `{Jwt} `{ProcessEnv}.

Definition access_payload (this : user) : jsval :=
  JObj [("_id", JStr (id this));
        ("username", JStr (username this));
        ("email", JStr (email this));
        ("fullname", JStr (fullname this))].

Definition generateAccessToken (this : user) : string :=
  jwt_sign (access_payload this)
           (process_env "ACCESS_TOKEN_SECRET")
           (JObj [("expiresIn", process_env "ACCESS_TOKEN_EXPIRY")]).

Definition refresh_payload (this : user) : jsval :=
  JObj [("_id", JStr (id this))].

Definition generateRefreshToken (this : user) : string :=
  jwt_sign (refresh_payload this)
           (process_env "REFRESH_TOKEN_SECRET")
           (JObj [("expiresIn", process_env "REFRESH_TOKEN_EXPIRY")]).
End Tokens.


(** [bcrypt.compare(data, encrypted, cb)]: what the library finds, and what
    the callback it is given does with it.  Called with a callback the
    library returns no promise: the call evaluates to [undefined], and the
    callback is run later with [(err, same)], outside the caller. *)
Inductive compared : Type :=
| CompareFailed (err : jsval)
| Compared (same : bool).

Class BcryptCompare : Type := {
  bcrypt_compare : string -> string -> compared
}.

Inductive callback_outcome : Type :=
| CbReturned (v : jsval)
| CbThrew (error : jsval).

Record compare_call : Type := {
  returned : jsval;
  callback : callback_outcome
}.

Section Compare.
Context `{BcryptCompare}.

Definition compare_with_callback (data encrypted : string)
    (cb : jsval -> jsval -> callback_outcome) : compare_call :=
  {| returned := JUndefined;
     callback := match bcrypt_compare data encrypted with
                 | CompareFailed err => cb err JUndefined
                 | Compared same => cb JUndefined (JBool same)
                 end |}.

(** [userSchema.methods.isPasswordCorrect]: [returned] is the value the
    method's promise resolves to ([return await] of the call's value),
    [callback] what the arrow function passed as third argument does. *)
Definition isPasswordCorrect (this : user) (candidate : string) : compare_call :=
  compare_with_callback candidate (password this)
    (fun err isMatch => if truthy err then CbThrew err else CbReturned isMatch).
End Compare.

End UserModel.

(** ** The multer storage ([src/middlewares/multer.middleware.js]) *)

Module Multer.

(** What multer knows of an incoming file when it asks where to put it. *)
Record file : Type := {
  fieldname : string;
  originalname : string;
  mimetype : string
}.

(** The two functions given to [multer.diskStorage], each answering through
    its callback [cb(error, value)]. *)
Definition destination {R} (req : jsval) (f : file) (cb : jsval -> string -> R) : R :=
  cb JNull "./public/uploads/temp".

Definition filename {R} (req : jsval) (f : file) (cb : jsval -> string -> R) : R :=
  cb JNull (fieldname f).

(** The path disk storage writes the file to: it asks for the destination,
    then for the file name, gives up on an error, and joins the two with
    [path.join], here [join]. *)
Definition staged_path (join : string -> string -> string) (req : jsval) (f : file)
    : option string :=
  destination req f (fun err dir =>
    if truthy err then None
    else filename req f (fun err name =>
      if truthy err then None else Some (join dir name))).

End Multer.

(** ** Server start-up (the entry script, [src/unnamed/part_000]) *)

Module Startup.

Inductive event : Type :=
| EvListen (port : jsval)
| EvLog (args : list jsval).

(** How the promise of [connectDB()] settles, and what [app.listen] does
    with a port: it calls back once listening, throws at once, or fails
    later without calling back. *)
Inductive connected : Type :=
| Connected
| ConnectFailed (err : jsval).

Inductive listening : Type :=
| Listening
| ListenThrows (err : jsval)
| ListenSilent.

Record world : Type := {
  env : string -> option string;
  connectDB : connected;
  listen : jsval -> listening
}.

(** [process.env.NAME] is a string or undefined. *)
Definition process_env_get (w : world) (name : string) : jsval :=
  match env w name with
  | Some s => JStr s
  | None => JUndefined
  end.

(** [a || b] *)
Definition js_or (a b : jsval) : jsval := if truthy a then a else b.

(** [${process.env.NAME}] inside a template literal: the string itself, or
    the text of [undefined]. *)
Definition template_env (w : world) (name : string) : string :=
  match env w name with
  | Some s => s
  | None => "undefined"
  end.

(** [connectDB().then(() => { app.listen(...) }).catch((err) => { ... })]:
    the handler of [catch] receives a rejection of [connectDB()] and also
    whatever the [then] callback throws. *)
Definition main (w : world) : list event :=
  match connectDB w with
  | Connected =>
      let port := js_or (process_env_get w "PORT") (JNum 8000) in
      match listen w port with
      | Listening =>
          [EvListen port;
           EvLog [JStr ("Server is running on port "
                        ++ template_env w "PORT")]]
      | ListenThrows err =>
          [EvListen port; EvLog [JStr "MONGODB CONNECTION ERROR:"; err]]
      | ListenSilent => [EvListen port]
      end
  | ConnectFailed err => [EvLog [JStr "MONGODB CONNECTION ERROR:"; err]]
  end.

End Startup.

(** ** Stand-ins for the outside world, used to run the code on examples *)

Module Scenario.
Import Cloudinary UserModel.

(** A store that answers every upload with the same response, and one that
    rejects every upload; nothing else touches the disk meanwhile. *)
Definition always_fulfils (response : jsval) : remote :=
  {| upload := fun _ _ _ => Fulfilled response; meanwhile := fun d => d |}.

Definition always_rejects (reason : jsval) : remote :=
  {| upload := fun _ _ _ => Rejected reason; meanwhile := fun d => d |}.

(** A store that rejects, while another request removes the staged file
    during the upload (multer names a staged file after its form field, so
    two requests can stage the same path). *)
Definition rejects_while_removed (reason : jsval) (p : string) : remote :=
  {| upload := fun _ _ _ => Rejected reason; meanwhile := fun d => d ∖ {[p]} |}.

Definition avatar_path : string := "./tmp/avatar123.png".

Definition avatar_response : jsval :=
  JObj [("url", JStr "https://cdn.example/avatar123.png"); ("id", JStr "avatar123")].

Definition network_error : jsval := JObj [("message", JStr "ECONNRESET")].

(** Library stand-ins for the user model. *)
Definition toy_bcrypt : Bcrypt :=
  {| bcrypt_hash := fun plain rounds => "$2b$10$" ++ plain |}.

Definition toy_jwt : Jwt :=
  {| jwt_sign := fun payload secret options =>
       match payload with
       | JObj ((_, JStr sub) :: rest) =>
           (if Nat.eqb (length rest) 0 then "short." else "long.") ++ sub
       | _ => "none"
       end |}.

(** A signer whose token spells out the string properties it was given. *)
Fixpoint spelled_out (props : list (string * jsval)) : string :=
  match props with
  | [] => ""
  | (k, JStr v) :: rest => k ++ "=" ++ v ++ ";" ++ spelled_out rest
  | _ :: rest => spelled_out rest
  end.

Definition plain_jwt : Jwt :=
  {| jwt_sign := fun payload secret options =>
       match payload with
       | JObj props => spelled_out props
       | _ => ""
       end |}.

Definition toy_env : ProcessEnv :=
  {| process_env := fun name => JStr ("value of " ++ name) |}.

Definition alice : user :=
  {| _id := "65a1"; username := "alice"; email := "alice@example.com";
     fullname := "Alice A"; avatar := "https://cdn.example/a.png";
     coverImage := None; watchHistory := []; password := "hunter22";
     refreshToken := None; modifiedPaths := {["password"]} |}.

(** The same document key under another name and address. *)
Definition alias : user :=
  {| _id := "65a1"; username := "alias"; email := "alias@example.org";
     fullname := "Alias B"; avatar := "https://cdn.example/a.png";
     coverImage := None; watchHistory := []; password := "hunter22";
     refreshToken := None; modifiedPaths := ∅ |}.

(** A stored user whose profile, not password, was edited. *)
Definition stored_bob : user :=
  {| _id := "65b2"; username := "bob"; email := "bob@example.com";
     fullname := "Bob B"; avatar := "https://cdn.example/b.png";
     coverImage := None; watchHistory := [];
     password := "$2b$10$already-hashed";
     refreshToken := None; modifiedPaths := {["fullname"]} |}.

Definition other_file : string := "./public/uploads/temp/coverImage".

(** A comparison that agrees with [toy_bcrypt]. *)
Definition toy_compare : BcryptCompare :=
  {| bcrypt_compare := fun data encrypted =>
       Compared (String.eqb ("$2b$10$" ++ data) encrypted) |}.


Definition rotated_env : ProcessEnv :=
  {| process_env := fun name =>
       if String.prefix "REFRESH" name then JStr "rotated" else JStr ("value of " ++ name) |}.

Definition avatar_png : Multer.file :=
  {| Multer.fieldname := "avatar"; Multer.originalname := "me.png";
     Multer.mimetype := "image/png" |}.

Definition avatar_jpg : Multer.file :=
  {| Multer.fieldname := "avatar"; Multer.originalname := "holiday.jpg";
     Multer.mimetype := "image/jpeg" |}.

Definition slash_join (dir name : string) : string := dir ++ "/" ++ name.

Definition no_port : Startup.world :=
  {| Startup.env := fun _ => None;
     Startup.connectDB := Startup.Connected;
     Startup.listen := fun _ => Startup.Listening |}.

Definition port_3000 : Startup.world :=
  {| Startup.env := fun name => if String.eqb name "PORT" then Some "3000" else None;
     Startup.connectDB := Startup.Connected;
     Startup.listen := fun _ => Startup.Listening |}.

Definition bad_port : Startup.world :=
  {| Startup.env := fun name => if String.eqb name "PORT" then Some "http" else None;
     Startup.connectDB := Startup.Connected;
     Startup.listen := fun _ => Startup.ListenThrows (JStr "ERR_SOCKET_BAD_PORT") |}.

Definition db_down : Startup.world :=
  {| Startup.env := fun _ => None;
     Startup.connectDB := Startup.ConnectFailed (JStr "ECONNREFUSED");
     Startup.listen := fun _ => Startup.Listening |}.

End Scenario.

(** * Properties *)

Import Cloudinary.

(** ** How one invocation of [uploadToCloudinary] runs *)

Section Handoff.
Variable cloud : remote.

(** Unfold one invocation on a path whose truthiness [Hp] states. *)
Ltac run Hp :=
  unfold upload_settles in *;
  unfold uploadToCloudinary; rewrite Hp; cbn [negb];
  unfold try_catch, bind, uploader_upload; cbn [result disk_after events].

Lemma run_falsy p d :
  truthy p = false ->
  uploadToCloudinary cloud p d = {| result := Normal JNull; disk_after := d; events := [] |}.
Proof. intros Hp. run Hp. reflexivity. Qed.

Lemma run_fulfilled p d response :
  truthy p = true ->
  upload_settles cloud p d = Fulfilled response ->
  nullish response = false ->
  uploadToCloudinary cloud p d =
    {| result := Normal response;
       disk_after := meanwhile cloud d;
       events := [EvUpload p upload_options;
                  EvLog [JStr "File Uploaded successfully";
                         match response with
                         | JObj props => default JUndefined (own_property "url" props)
                         | _ => JUndefined
                         end]] |}.
Proof.
  intros Hp Hup Hr. run Hp. rewrite Hup.
  destruct response; try discriminate Hr; reflexivity.
Qed.

Lemma run_catch_present s d :
  truthy (JStr s) = true ->
  enters_catch cloud (JStr s) d = true ->
  s ∈ meanwhile cloud d ->
  uploadToCloudinary cloud (JStr s) d =
    {| result := Normal JNull;
       disk_after := meanwhile cloud d ∖ {[s]};
       events := [EvUpload (JStr s) upload_options; EvUnlink (JStr s)] |}.
Proof.
  intros Hp Hc Hin. unfold enters_catch in Hc. run Hp.
  destruct (upload cloud (JStr s) upload_options d) as [response|reason].
  - destruct response; try discriminate Hc; cbn;
      (destruct (decide (s ∈ meanwhile cloud d)); [reflexivity | contradiction]).
  - cbn. destruct (decide (s ∈ meanwhile cloud d)); [reflexivity | contradiction].
Qed.

Lemma run_catch_absent s d :
  truthy (JStr s) = true ->
  enters_catch cloud (JStr s) d = true ->
  s ∉ meanwhile cloud d ->
  uploadToCloudinary cloud (JStr s) d =
    {| result := Abrupt (ENOENT s);
       disk_after := meanwhile cloud d;
       events := [EvUpload (JStr s) upload_options; EvUnlink (JStr s)] |}.
Proof.
  intros Hp Hc Hin. unfold enters_catch in Hc. run Hp.
  destruct (upload cloud (JStr s) upload_options d) as [response|reason].
  - destruct response; try discriminate Hc; cbn;
      (destruct (decide (s ∈ meanwhile cloud d)); [contradiction | reflexivity]).
  - cbn. destruct (decide (s ∈ meanwhile cloud d)); [contradiction | reflexivity].
Qed.

Lemma rejected_enters_catch p d reason :
  upload_settles cloud p d = Rejected reason -> enters_catch cloud p d = true.
Proof. intros Hup. unfold enters_catch. rewrite Hup. reflexivity. Qed.

(** For a truthy path the first call made is the upload, and no later
    call is one. *)
Lemma run_events_shape p d :
  truthy p = true ->
  exists rest,
    events (uploadToCloudinary cloud p d) = EvUpload p upload_options :: rest
    /\ count is_upload rest = 0%nat.
Proof.
  intros Hp. run Hp.
  destruct (upload cloud p upload_options d) as [response|reason].
  - destruct response; cbn; try (eexists; split; [reflexivity | reflexivity]);
      destruct p; cbn; try (eexists; split; [reflexivity | reflexivity]);
      destruct (decide (_ ∈ _)); cbn; eexists; split; reflexivity.
  - cbn. destruct p; cbn; try (eexists; split; [reflexivity | reflexivity]);
      destruct (decide (_ ∈ _)); cbn; eexists; split; reflexivity.
Qed.

Lemma no_upload_among evs f o :
  count is_upload evs = 0%nat -> ~ In (EvUpload f o) evs.
Proof.
  induction evs as [|ev evs IH]; intros Hc Hin; [exact Hin |].
  destruct Hin as [-> | Hin]; [discriminate Hc |].
  cbn [count] in Hc. destruct (is_upload ev); [discriminate Hc | exact (IH Hc Hin)].
Qed.

(** Whether [fs.unlinkSync] is reached is decided by [enters_catch]. *)
Lemma run_unlink_count p d :
  truthy p = true ->
  count is_unlink (events (uploadToCloudinary cloud p d)) =
    (if enters_catch cloud p d then 1 else 0)%nat.
Proof.
  intros Hp. unfold enters_catch. run Hp.
  destruct (upload cloud p upload_options d) as [response|reason].
  - destruct response; cbn; try reflexivity;
      destruct p; cbn; try reflexivity;
      destruct (decide (_ ∈ _)); reflexivity.
  - cbn. destruct p; cbn; try reflexivity;
      destruct (decide (_ ∈ _)); reflexivity.
Qed.

Lemma run_skips_catch p d :
  truthy p = true ->
  enters_catch cloud p d = false ->
  disk_after (uploadToCloudinary cloud p d) = meanwhile cloud d
  /\ result (uploadToCloudinary cloud p d) <> Normal JNull.
Proof.
  intros Hp Hc. unfold enters_catch in Hc.
  destruct (upload_settles cloud p d) as [response|reason] eqn:Hup; [| discriminate Hc].
  rewrite (run_fulfilled p d response Hp Hup Hc). cbn. split; [reflexivity |].
  intros [= ->]. discriminate Hc.
Qed.

Lemma deletion_only_in_catch_aux s d :
  truthy (JStr s) = true ->
  enters_catch cloud (JStr s) d = false ->
  ~ In (EvUnlink (JStr s)) (events (uploadToCloudinary cloud (JStr s) d)).
Proof.
  intros Hp Hc. unfold enters_catch in Hc.
  destruct (upload_settles cloud (JStr s) d) as [response|reason] eqn:Hup;
    [| discriminate Hc].
  rewrite (run_fulfilled (JStr s) d response Hp Hup Hc). cbn.
  intros [Hin | [Hin | []]]; discriminate Hin.
Qed.

(** ** The claims about the hand-off *)

(** C2.  Claimed: every invocation with a non-empty path performs exactly
    one deletion of that path, so the staged file never outlives the call.
    The code calls [fs.unlinkSync] only inside [catch]: an invocation
    performs one deletion call when the catch block is entered and none
    otherwise, and in the latter case the disk is left as the upload left
    it, so a staged file that is there stays there. *)
Theorem deletion_only_in_catch (p : jsval) (d : gset string) :
  truthy p = true ->
  let o := uploadToCloudinary cloud p d in
  count is_unlink (events o) = (if enters_catch cloud p d then 1 else 0)%nat
  /\ (enters_catch cloud p d = false ->
      disk_after o = meanwhile cloud d /\ ~ In (EvUnlink p) (events o)).
Proof.
  intros Hp o. subst o. split; [exact (run_unlink_count p d Hp) |].
  intros Hc. split; [exact (proj1 (run_skips_catch p d Hp Hc)) |].
  unfold enters_catch in Hc.
  destruct (upload_settles cloud p d) as [response|reason] eqn:Hup; [| discriminate Hc].
  rewrite (run_fulfilled p d response Hp Hup Hc). cbn.
  intros [Hin | [Hin | []]]; discriminate Hin.
Qed.

(** C3.  When the upload of a non-empty path rejects and the staged file
    is on disk when the catch block runs, the invocation deletes that file
    with one [fs.unlinkSync] call and returns [null]: nothing is thrown,
    whatever the reason of the rejection. *)
Theorem failed_upload_cleans_up_and_returns_null
    (s : string) (d : gset string) (reason : jsval) :
  truthy (JStr s) = true ->
  upload_settles cloud (JStr s) d = Rejected reason ->
  s ∈ meanwhile cloud d ->
  let o := uploadToCloudinary cloud (JStr s) d in
  result o = Normal JNull
  /\ (s ∉ disk_after o)
  /\ disk_after o = meanwhile cloud d ∖ {[s]}
  /\ events o = [EvUpload (JStr s) upload_options; EvUnlink (JStr s)].
Proof.
  intros Hp Hup Hin o. subst o.
  rewrite (run_catch_present s d Hp (rejected_enters_catch _ _ _ Hup) Hin). cbn.
  split; [reflexivity |]. split; [| split; reflexivity].
  apply not_elem_of_difference. right. apply elem_of_singleton. reflexivity.
Qed.

(** C4.  On an empty or absent path (any falsy value: [""], [undefined],
    [null]) the invocation returns [null] at once: nothing is thrown, the
    disk is untouched, and no call is made, neither an upload nor a
    deletion. *)
Theorem empty_path_returns_null_without_effects (p : jsval) (d : gset string) :
  truthy p = false ->
  let o := uploadToCloudinary cloud p d in
  result o = Normal JNull /\ disk_after o = d /\ events o = [].
Proof.
  intros Hp o. subst o. rewrite (run_falsy p d Hp). cbn. repeat split.
Qed.

(** C6.  An invocation on a non-empty path calls the store's upload exactly
    once, whether that upload fulfils or rejects, and the call passes the
    path it was given with the options [{ resource_type: "auto" }]. *)
Theorem uploads_exactly_once_with_auto_resource_type (p : jsval) (d : gset string) :
  truthy p = true ->
  let evs := events (uploadToCloudinary cloud p d) in
  count is_upload evs = 1%nat
  /\ In (EvUpload p (JObj [("resource_type", JStr "auto")])) evs
  /\ (forall file options, In (EvUpload file options) evs ->
        file = p /\ options = JObj [("resource_type", JStr "auto")]).
Proof.
  intros Hp evs. subst evs.
  destruct (run_events_shape p d Hp) as (rest & -> & Hrest).
  cbn [count is_upload]. rewrite Hrest. split; [reflexivity |].
  split; [left; reflexivity |].
  intros file options [Heq | Hin].
  - injection Heq as <- <-. split; reflexivity.
  - destruct (no_upload_among rest file options Hrest Hin).
Qed.

(** C7.  If the invocation reaches its cleanup (it calls [fs.unlinkSync] on
    the path) and the file is not on disk at that time, the deletion error
    propagates: the invocation ends with ENOENT thrown to its caller, not
    with a [null] return, and the disk is as the upload left it. *)
Theorem cleanup_of_missing_file_throws (s : string) (d : gset string) :
  truthy (JStr s) = true ->
  let o := uploadToCloudinary cloud (JStr s) d in
  In (EvUnlink (JStr s)) (events o) ->
  s ∉ meanwhile cloud d ->
  result o = Abrupt (ENOENT s) /\ disk_after o = meanwhile cloud d.
Proof.
  intros Hp o Hev Hout. subst o.
  destruct (enters_catch cloud (JStr s) d) eqn:Hc.
  - rewrite (run_catch_absent s d Hp Hc Hout). cbn. split; reflexivity.
  - destruct (deletion_only_in_catch_aux s d Hp Hc Hev).
Qed.

End Handoff.

Import Scenario.

(** C1.  Claimed: when the upload succeeds the invocation deletes the staged
    file and returns the store's response.  On the example of the
    specification (the file [./tmp/avatar123.png] is on disk and the store
    answers with a url and an id) the code returns that response unchanged,
    but it never calls [fs.unlinkSync] and the file is still on disk when the
    invocation has returned. *)
Theorem fulfilled_upload_leaves_staged_file :
  let o := uploadToCloudinary (always_fulfils avatar_response)
                              (JStr avatar_path) {[avatar_path]} in
  result o = Normal avatar_response
  /\ avatar_path ∈ disk_after o
  /\ count is_unlink (events o) = 0%nat.
Proof.
  intros o. subst o.
  rewrite (run_fulfilled (always_fulfils avatar_response) (JStr avatar_path)
             {[avatar_path]} avatar_response eq_refl eq_refl eq_refl).
  cbn. split; [reflexivity |]. split; [| reflexivity].
  apply elem_of_singleton. reflexivity.
Qed.

(** The general statement for C2 at a staged cover image that the store
    accepts: no deletion call, and the file survives the invocation. *)
Lemma deletion_only_in_catch_cover_image :
  let p := "./public/uploads/temp/coverImage" in
  let o := uploadToCloudinary (always_fulfils avatar_response) (JStr p) {[p]} in
  count is_unlink (events o) = 0%nat
  /\ p ∈ disk_after o
  /\ ~ In (EvUnlink (JStr p)) (events o).
Proof.
  intros p o.
  destruct (deletion_only_in_catch (always_fulfils avatar_response) (JStr p) {[p]} eq_refl)
    as [Hcount Hkeep].
  destruct (Hkeep eq_refl) as [Hdisk Hnone].
  split; [exact Hcount |]. split; [| exact Hnone].
  subst o. rewrite Hdisk. cbn. apply elem_of_singleton. reflexivity.
Defined.

Lemma failed_upload_cleans_up_and_returns_null_avatar :
  let o := uploadToCloudinary (always_rejects network_error)
                              (JStr avatar_path) {[avatar_path]} in
  result o = Normal JNull
  /\ (avatar_path ∉ disk_after o)
  /\ disk_after o = {[avatar_path]} ∖ {[avatar_path]}
  /\ events o = [EvUpload (JStr avatar_path) upload_options; EvUnlink (JStr avatar_path)].
Proof.
  assert (Hin : avatar_path ∈ meanwhile (always_rejects network_error) {[avatar_path]}).
  { cbn. apply elem_of_singleton. reflexivity. }
  exact (failed_upload_cleans_up_and_returns_null (always_rejects network_error)
           avatar_path {[avatar_path]} network_error eq_refl eq_refl Hin).
Defined.

Lemma empty_path_returns_null_without_effects_examples :
  (let o := uploadToCloudinary (always_fulfils avatar_response) (JStr "") {[avatar_path]} in
   result o = Normal JNull /\ disk_after o = {[avatar_path]} /\ events o = [])
  /\ (let o := uploadToCloudinary (always_rejects network_error) JUndefined {[avatar_path]} in
      result o = Normal JNull /\ disk_after o = {[avatar_path]} /\ events o = []).
Proof.
  split.
  - apply (empty_path_returns_null_without_effects (always_fulfils avatar_response)
             (JStr "") {[avatar_path]}). reflexivity.
  - apply (empty_path_returns_null_without_effects (always_rejects network_error)
             JUndefined {[avatar_path]}). reflexivity.
Defined.

(** C5.  Claimed: no exception ever reaches the caller.  When the upload of
    a path with no file behind it rejects, the catch block calls
    [fs.unlinkSync] on it, and the ENOENT this throws is what the
    invocation ends with. *)
Theorem deletion_error_escapes_to_caller :
  let o := uploadToCloudinary (always_rejects network_error) (JStr avatar_path) ∅ in
  result o = Abrupt (ENOENT avatar_path)
  /\ result o <> Normal JNull.
Proof.
  intros o. subst o.
  rewrite (run_catch_absent (always_rejects network_error) avatar_path ∅ eq_refl eq_refl).
  - cbn. split; [reflexivity | discriminate].
  - cbn. apply not_elem_of_empty.
Qed.

Lemma uploads_exactly_once_with_auto_resource_type_on_rejection :
  let evs := events (uploadToCloudinary (always_rejects network_error)
                                        (JStr avatar_path) {[avatar_path]}) in
  count is_upload evs = 1%nat
  /\ In (EvUpload (JStr avatar_path) (JObj [("resource_type", JStr "auto")])) evs
  /\ (forall file options, In (EvUpload file options) evs ->
        file = JStr avatar_path /\ options = JObj [("resource_type", JStr "auto")]).
Proof.
  apply (uploads_exactly_once_with_auto_resource_type (always_rejects network_error)
           (JStr avatar_path) {[avatar_path]}).
  reflexivity.
Defined.

(** What the first of two invocations on the example path leaves behind
    when the store rejects. *)
Lemma rejected_avatar_run :
  uploadToCloudinary (always_rejects network_error) (JStr avatar_path) {[avatar_path]} =
    {| result := Normal JNull;
       disk_after := {[avatar_path]} ∖ {[avatar_path]};
       events := [EvUpload (JStr avatar_path) upload_options;
                  EvUnlink (JStr avatar_path)] |}.
Proof.
  assert (Hin : avatar_path ∈ meanwhile (always_rejects network_error) {[avatar_path]}).
  { cbn. apply elem_of_singleton. reflexivity. }
  exact (run_catch_present (always_rejects network_error) avatar_path {[avatar_path]}
           eq_refl eq_refl Hin).
Qed.

(** A second invocation on a path the first one has already cleaned up. *)
Lemma cleanup_of_missing_file_throws_second_call :
  let first := uploadToCloudinary (always_rejects network_error)
                                  (JStr avatar_path) {[avatar_path]} in
  let second := uploadToCloudinary (always_rejects network_error)
                                   (JStr avatar_path) (disk_after first) in
  result first = Normal JNull
  /\ result second = Abrupt (ENOENT avatar_path)
  /\ disk_after second = disk_after first.
Proof.
  intros first second.
  assert (Hgone : avatar_path ∉ meanwhile (always_rejects network_error) (disk_after first)).
  { subst first. rewrite rejected_avatar_run. cbn.
    apply not_elem_of_difference. right. apply elem_of_singleton. reflexivity. }
  split; [subst first; rewrite rejected_avatar_run; reflexivity |].
  apply (cleanup_of_missing_file_throws (always_rejects network_error)
           avatar_path (disk_after first) eq_refl); [| exact Hgone].
  rewrite (run_catch_absent (always_rejects network_error) avatar_path
             (disk_after first) eq_refl eq_refl Hgone).
  cbn. right. left. reflexivity.
Defined.

(** ** The response envelope *)

Import Response.

(** C8.  [new ApiResponse(statuscode, data, message)] keeps the status code
    and the data as given, keeps the message as given unless it is omitted
    (undefined), in which case the message is ["success"], and sets
    [success] to true exactly when the status code is below 400. *)
Theorem ApiResponse_keeps_fields_and_flags_success (sc : Z) (d m : jsval) :
  let r := new_ApiResponse sc d m in
  statuscode r = sc
  /\ data r = d
  /\ (m <> JUndefined -> message r = m)
  /\ (m = JUndefined -> message r = JStr "success")
  /\ (success r = true <-> sc < 400).
Proof.
  intros r. subst r. unfold new_ApiResponse. cbn.
  split; [reflexivity |]. split; [reflexivity |].
  split; [| split].
  - intros Hm. destruct m; try reflexivity. destruct Hm. reflexivity.
  - intros ->. reflexivity.
  - apply Z.ltb_lt.
Qed.

(** ** The user model *)

Import UserModel.

Section HookFacts.
Context `{Bcrypt}.

Lemma pre_save_modified (this : user) :
  isModified this "password" = true ->
  pre_save this =
    (set_password this (bcrypt_hash (password this) 10),
     [EvHash (password this) 10; EvNext]).
Proof. intros Hm. unfold pre_save. rewrite Hm. reflexivity. Qed.

Lemma pre_save_unmodified (this : user) :
  isModified this "password" = false -> pre_save this = (this, [EvNext]).
Proof. intros Hm. unfold pre_save. rewrite Hm. reflexivity. Qed.

(** C9.  The pre-save hook calls [bcrypt.hash] (once, on the current
    password, with cost 10) exactly when the password path is modified,
    and then stores the hash as the password; when the password path is
    not modified it makes no hash call and hands the document on as it
    is.  In both cases nothing but the password field can differ. *)
Theorem pre_save_hashes_exactly_when_password_modified (this : user) :
  let saved := fst (pre_save this) in
  let evs := snd (pre_save this) in
  (hash_calls evs = [(password this, 10)] <-> isModified this "password" = true)
  /\ (hash_calls evs = [] <-> isModified this "password" = false)
  /\ (isModified this "password" = true ->
      password saved = bcrypt_hash (password this) 10)
  /\ (isModified this "password" = false -> saved = this)
  /\ saved = set_password this (password saved).
Proof.
  intros saved evs. subst saved evs.
  destruct (isModified this "password") eqn:Hm.
  - rewrite (pre_save_modified this Hm). cbn.
    repeat split; try reflexivity; try discriminate; intros; reflexivity.
  - rewrite (pre_save_unmodified this Hm). cbn.
    repeat split; try reflexivity; try discriminate; intros; try reflexivity.
    destruct this; reflexivity.
Qed.
End HookFacts.

Section TokenFacts.
Context `{Jwt} `{ProcessEnv}.

(** C10.  [generateRefreshToken] hands [jwt.sign] the object with the
    single property [_id] (with the refresh secret and expiry), so two
    users with the same id get the same refresh payload and the same
    refresh token whatever their username, email and fullname.
    [generateAccessToken] hands [jwt.sign] the object with all four
    properties (with the access secret and expiry); under a signer that
    tells payloads apart, two such users get the same access token only if
    the three other fields agree. *)
Theorem refresh_token_payload_is_id_only (u1 u2 : user) :
  id u1 = id u2 ->
  generateRefreshToken u1 =
    jwt_sign (JObj [("_id", JStr (id u1))])
             (process_env "REFRESH_TOKEN_SECRET")
             (JObj [("expiresIn", process_env "REFRESH_TOKEN_EXPIRY")])
  /\ generateAccessToken u1 =
       jwt_sign (JObj [("_id", JStr (id u1)); ("username", JStr (username u1));
                       ("email", JStr (email u1)); ("fullname", JStr (fullname u1))])
                (process_env "ACCESS_TOKEN_SECRET")
                (JObj [("expiresIn", process_env "ACCESS_TOKEN_EXPIRY")])
  /\ refresh_payload u1 = JObj [("_id", JStr (id u1))]
  /\ refresh_payload u1 = refresh_payload u2
  /\ generateRefreshToken u1 = generateRefreshToken u2
  /\ access_payload u1 =
       JObj [("_id", JStr (id u1)); ("username", JStr (username u1));
             ("email", JStr (email u1)); ("fullname", JStr (fullname u1))]
  /\ (access_payload u1 = access_payload u2 <->
        username u1 = username u2 /\ email u1 = email u2 /\ fullname u1 = fullname u2)
  /\ ((forall p1 p2 secret options,
         jwt_sign p1 secret options = jwt_sign p2 secret options -> p1 = p2) ->
      (generateAccessToken u1 = generateAccessToken u2 <->
         username u1 = username u2 /\ email u1 = email u2 /\ fullname u1 = fullname u2)).
Proof.
  intros Hid.
  assert (Hpay : refresh_payload u1 = refresh_payload u2).
  { unfold refresh_payload. rewrite Hid. reflexivity. }
  assert (Hacc : access_payload u1 = access_payload u2 <->
                 username u1 = username u2 /\ email u1 = email u2
                 /\ fullname u1 = fullname u2).
  { unfold access_payload. rewrite Hid. split.
    - intros Heq. injection Heq as Hu He Hf. repeat split; assumption.
    - intros (-> & -> & ->). reflexivity. }
  split; [reflexivity |]. split; [reflexivity |].
  split; [reflexivity |]. split; [exact Hpay |].
  split; [unfold generateRefreshToken; rewrite Hpay; reflexivity |].
  split; [reflexivity |]. split; [exact Hacc |].
  intros Hinj. split.
  - intros Htok. apply Hacc. unfold generateAccessToken in Htok.
    exact (Hinj _ _ _ _ Htok).
  - intros Hfields. unfold generateAccessToken.
    rewrite (proj2 Hacc Hfields). reflexivity.
Qed.
End TokenFacts.

(** Alice and her alias share a document key and nothing else that is
    signed: one refresh token, two access tokens. *)
Lemma refresh_token_payload_is_id_only_alice_alias :
  @generateRefreshToken plain_jwt toy_env alice = "_id=65a1;"
  /\ @generateRefreshToken plain_jwt toy_env alice
     = @generateRefreshToken plain_jwt toy_env alias
  /\ @generateAccessToken plain_jwt toy_env alice
     = "_id=65a1;username=alice;email=alice@example.com;fullname=Alice A;"
  /\ @generateAccessToken plain_jwt toy_env alice
     <> @generateAccessToken plain_jwt toy_env alias
  /\ access_payload alice <> access_payload alias.
Proof.
  destruct (@refresh_token_payload_is_id_only plain_jwt toy_env alice alias eq_refl)
    as (Hrefresh & Haccess & _ & _ & Hsame & _ & Hacc & _).
  split; [exact Hrefresh |]. split; [exact Hsame |].
  split; [exact Haccess |]. split.
  - rewrite Haccess. vm_compute. discriminate.
  - intros Heq. apply Hacc in Heq. destruct Heq as (Hname & _). discriminate Hname.
Defined.

(** ** The code run on examples *)

Example handoff_file_removed_during_upload :
  result (uploadToCloudinary (rejects_while_removed network_error avatar_path)
                             (JStr avatar_path) {[avatar_path]})
  = Abrupt (ENOENT avatar_path).
Proof.
  rewrite (run_catch_absent (rejects_while_removed network_error avatar_path)
             avatar_path {[avatar_path]} eq_refl eq_refl); [reflexivity |].
  cbn. apply not_elem_of_difference. right. apply elem_of_singleton. reflexivity.
Qed.

Example handoff_undefined_response :
  uploadToCloudinary (always_fulfils JUndefined) (JStr avatar_path) {[avatar_path]}
  = {| result := Normal JNull;
       disk_after := {[avatar_path]} ∖ {[avatar_path]};
       events := [EvUpload (JStr avatar_path) upload_options;
                  EvUnlink (JStr avatar_path)] |}.
Proof.
  assert (Hin : avatar_path ∈ meanwhile (always_fulfils JUndefined) {[avatar_path]}).
  { cbn. apply elem_of_singleton. reflexivity. }
  exact (run_catch_present (always_fulfils JUndefined) avatar_path {[avatar_path]}
           eq_refl eq_refl Hin).
Qed.

Example handoff_numeric_path :
  result (uploadToCloudinary (always_rejects network_error) (JNum 7) ∅)
  = Abrupt (ERR_INVALID_ARG_TYPE (JNum 7)).
Proof. reflexivity. Qed.

Example ApiResponse_created :
  new_ApiResponse 201 (JObj [("id", JStr "65a1")]) JUndefined
  = {| data := JObj [("id", JStr "65a1")]; statuscode := 201;
       message := JStr "success"; success := true |}.
Proof. reflexivity. Qed.

Example ApiResponse_bad_request :
  new_ApiResponse 400 JNull (JStr "username is required")
  = {| data := JNull; statuscode := 400;
       message := JStr "username is required"; success := false |}.
Proof. reflexivity. Qed.

Example ApiResponse_399 : success (new_ApiResponse 399 JNull JUndefined) = true.
Proof. reflexivity. Qed.

Example pre_save_new_password :
  @pre_save toy_bcrypt alice
  = (set_password alice "$2b$10$hunter22", [EvHash "hunter22" 10; EvNext]).
Proof. apply (@pre_save_modified toy_bcrypt alice). vm_compute. reflexivity. Qed.

Example pre_save_profile_edit :
  @pre_save toy_bcrypt stored_bob = (stored_bob, [EvNext]).
Proof. apply (@pre_save_unmodified toy_bcrypt stored_bob). vm_compute. reflexivity. Qed.

Example tokens_alice :
  @generateRefreshToken toy_jwt toy_env alice = "short.65a1"
  /\ @generateAccessToken toy_jwt toy_env alice = "long.65a1".
Proof. split; reflexivity. Qed.

(** * Further properties of the modelled code *)

(** ** The hand-off *)

Section HandoffMore.
Variable cloud : remote.

(** The run of an invocation that enters the catch block, for any path. *)
Lemma run_catch p d :
  truthy p = true ->
  enters_catch cloud p d = true ->
  uploadToCloudinary cloud p d =
    {| result := match result (unlinkSync p (meanwhile cloud d)) with
                 | Normal _ => Normal JNull
                 | Abrupt e => Abrupt e
                 end;
       disk_after := disk_after (unlinkSync p (meanwhile cloud d));
       events := EvUpload p upload_options :: events (unlinkSync p (meanwhile cloud d)) |}.
Proof.
  intros Hp Hc. unfold enters_catch, upload_settles in Hc.
  unfold uploadToCloudinary. rewrite Hp. cbn [negb].
  unfold try_catch, bind, uploader_upload. cbn [result disk_after events].
  destruct (upload cloud p upload_options d) as [response|reason].
  - destruct response; try discriminate Hc; unfold unlinkSync;
      destruct p; cbn; try reflexivity;
      destruct (decide (_ ∈ _)); reflexivity.
  - unfold unlinkSync. destruct p; cbn; try reflexivity;
      destruct (decide (_ ∈ _)); reflexivity.
Qed.

Lemma unlinkSync_disk p d q :
  JStr q <> p ->
  q ∈ disk_after (unlinkSync p d) <-> q ∈ d.
Proof.
  intros Hq. unfold unlinkSync. destruct p; cbn; try reflexivity.
  destruct (decide (s ∈ d)); cbn; [| reflexivity].
  rewrite elem_of_difference, elem_of_singleton. split.
  - intros [Hin _]. exact Hin.
  - intros Hin. split; [exact Hin |]. intros ->. apply Hq. reflexivity.
Qed.

Lemma unlinkSync_shrinks p d : disk_after (unlinkSync p d) ⊆ d.
Proof.
  unfold unlinkSync. destruct p; cbn; try reflexivity.
  destruct (decide (s ∈ d)); cbn; [| reflexivity].
  intros q Hq. apply elem_of_difference in Hq. exact (proj1 Hq).
Qed.

Lemma unlinkSync_events p d : events (unlinkSync p d) = [EvUnlink p].
Proof.
  unfold unlinkSync. destruct p; try reflexivity.
  destruct (decide (s ∈ d)); reflexivity.
Qed.

Lemma skips_catch_run p d :
  truthy p = true ->
  enters_catch cloud p d = false ->
  exists response,
    upload_settles cloud p d = Fulfilled response
    /\ nullish response = false
    /\ uploadToCloudinary cloud p d =
         {| result := Normal response;
            disk_after := meanwhile cloud d;
            events := [EvUpload p upload_options;
                       EvLog [JStr "File Uploaded successfully";
                              match response with
                              | JObj props => default JUndefined (own_property "url" props)
                              | _ => JUndefined
                              end]] |}.
Proof.
  intros Hp Hc. unfold enters_catch in Hc.
  destruct (upload_settles cloud p d) as [response|reason] eqn:Hup; [| discriminate Hc].
  exists response. split; [reflexivity |]. split; [exact Hc |].
  exact (run_fulfilled cloud p d response Hp Hup Hc).
Qed.

(** X2.  A return value other than [null] is always the response the store
    fulfilled the upload with: the caller never gets a made-up value, and a
    non-null result means the upload did succeed (and nothing was deleted). *)
Theorem non_null_result_is_the_store_response (p : jsval) (d : gset string) (v : jsval) :
  result (uploadToCloudinary cloud p d) = Normal v ->
  v <> JNull ->
  truthy p = true
  /\ upload_settles cloud p d = Fulfilled v
  /\ count is_unlink (events (uploadToCloudinary cloud p d)) = 0%nat.
Proof.
  intros Hres Hv.
  destruct (truthy p) eqn:Hp.
  - destruct (enters_catch cloud p d) eqn:Hc.
    + rewrite (run_catch p d Hp Hc) in Hres. cbn [result] in Hres.
      destruct (result (unlinkSync p (meanwhile cloud d))); [| discriminate Hres].
      injection Hres as <-. destruct Hv. reflexivity.
    + destruct (skips_catch_run p d Hp Hc) as (response & Hup & _ & Hrun).
      rewrite Hrun in Hres |- *. cbn in Hres |- *. injection Hres as <-.
      split; [reflexivity |]. split; [exact Hup | reflexivity].
  - rewrite (run_falsy cloud p d Hp) in Hres. cbn in Hres.
    injection Hres as <-. destruct Hv. reflexivity.
Qed.

(** X3.  A store that fulfils the upload with [null] or [undefined] is
    handled as a failure: reading [response.url] throws inside [try], so the
    staged file is deleted, nothing is logged and [null] is returned. *)
Theorem nullish_response_is_cleaned_up_like_a_failure
    (s : string) (d : gset string) (response : jsval) :
  truthy (JStr s) = true ->
  upload_settles cloud (JStr s) d = Fulfilled response ->
  nullish response = true ->
  s ∈ meanwhile cloud d ->
  let o := uploadToCloudinary cloud (JStr s) d in
  result o = Normal JNull
  /\ (s ∉ disk_after o)
  /\ events o = [EvUpload (JStr s) upload_options; EvUnlink (JStr s)].
Proof.
  intros Hp Hup Hn Hin o. subst o.
  assert (Hc : enters_catch cloud (JStr s) d = true).
  { unfold enters_catch. rewrite Hup. exact Hn. }
  rewrite (run_catch_present cloud s d Hp Hc Hin). cbn.
  split; [reflexivity |]. split; [| reflexivity].
  apply not_elem_of_difference. right. apply elem_of_singleton. reflexivity.
Qed.

(** X4.  Every invocation makes one of three sequences of calls: none at
    all (and returns [null]); the upload followed by the success log (and
    returns a response that is neither [null] nor [undefined]); or the
    upload followed by the deletion (and returns [null] or throws).  In
    particular the success log and the deletion never both happen. *)
Theorem handoff_call_sequences (p : jsval) (d : gset string) :
  let o := uploadToCloudinary cloud p d in
  (events o = [] /\ result o = Normal JNull)
  \/ (exists response url,
        events o = [EvUpload p upload_options;
                    EvLog [JStr "File Uploaded successfully"; url]]
        /\ result o = Normal response /\ nullish response = false)
  \/ (events o = [EvUpload p upload_options; EvUnlink p]
       /\ (result o = Normal JNull \/ exists e, result o = Abrupt e)).
Proof.
  intros o. subst o.
  destruct (truthy p) eqn:Hp.
  - destruct (enters_catch cloud p d) eqn:Hc.
    + right. right. rewrite (run_catch p d Hp Hc). cbn [events result].
      rewrite unlinkSync_events. split; [reflexivity |].
      destruct (result (unlinkSync p (meanwhile cloud d))) as [u|e];
        [left; reflexivity | right; exists e; reflexivity].
    + right. left. destruct (skips_catch_run p d Hp Hc) as (response & _ & Hn & ->).
      eexists response, _. cbn. split; [reflexivity |]. split; [reflexivity | exact Hn].
  - left. rewrite (run_falsy cloud p d Hp). split; reflexivity.
Qed.

End HandoffMore.

(** X6.  Retrying after a failure does not work: once an invocation whose
    upload rejected has cleaned the staged file up, a second invocation on
    the same path that reaches its own cleanup throws ENOENT, unless the
    file has been staged again in between. *)
Theorem retry_after_failed_upload_throws
    (first_try second_try : remote) (s : string) (d : gset string) (reason : jsval) :
  truthy (JStr s) = true ->
  upload_settles first_try (JStr s) d = Rejected reason ->
  s ∈ meanwhile first_try d ->
  let first := uploadToCloudinary first_try (JStr s) d in
  enters_catch second_try (JStr s) (disk_after first) = true ->
  (s ∉ disk_after first -> s ∉ meanwhile second_try (disk_after first)) ->
  let second := uploadToCloudinary second_try (JStr s) (disk_after first) in
  result first = Normal JNull
  /\ result second = Abrupt (ENOENT s)
  /\ disk_after second = meanwhile second_try (disk_after first).
Proof.
  intros Hp Hup Hin first Hc Hstill second.
  assert (Hfirst : first =
            {| result := Normal JNull;
               disk_after := meanwhile first_try d ∖ {[s]};
               events := [EvUpload (JStr s) upload_options; EvUnlink (JStr s)] |}).
  { exact (run_catch_present first_try s d Hp
             (rejected_enters_catch first_try _ _ _ Hup) Hin). }
  assert (Hgone : s ∉ disk_after first).
  { rewrite Hfirst. cbn. apply not_elem_of_difference. right.
    apply elem_of_singleton. reflexivity. }
  split; [rewrite Hfirst; reflexivity |].
  subst second.
  rewrite (run_catch_absent second_try s (disk_after first) Hp Hc (Hstill Hgone)).
  split; reflexivity.
Qed.

Lemma non_null_result_is_the_store_response_avatar :
  truthy (JStr avatar_path) = true
  /\ upload_settles (always_fulfils avatar_response) (JStr avatar_path) {[avatar_path]}
     = Fulfilled avatar_response
  /\ count is_unlink (events (uploadToCloudinary (always_fulfils avatar_response)
                                (JStr avatar_path) {[avatar_path]})) = 0%nat.
Proof.
  assert (Hv : avatar_response <> JNull) by discriminate.
  exact (non_null_result_is_the_store_response (always_fulfils avatar_response)
           (JStr avatar_path) {[avatar_path]} avatar_response eq_refl Hv).
Defined.

Lemma nullish_response_is_cleaned_up_like_a_failure_undefined :
  let o := uploadToCloudinary (always_fulfils JUndefined) (JStr avatar_path) {[avatar_path]} in
  result o = Normal JNull
  /\ (avatar_path ∉ disk_after o)
  /\ events o = [EvUpload (JStr avatar_path) upload_options; EvUnlink (JStr avatar_path)].
Proof.
  assert (Hin : avatar_path ∈ meanwhile (always_fulfils JUndefined) {[avatar_path]}).
  { cbn. apply elem_of_singleton. reflexivity. }
  exact (nullish_response_is_cleaned_up_like_a_failure (always_fulfils JUndefined)
           avatar_path {[avatar_path]} JUndefined eq_refl eq_refl eq_refl Hin).
Defined.

Lemma retry_after_failed_upload_throws_avatar :
  let first := uploadToCloudinary (always_rejects network_error)
                                  (JStr avatar_path) {[avatar_path]} in
  let second := uploadToCloudinary (always_rejects network_error)
                                   (JStr avatar_path) (disk_after first) in
  result first = Normal JNull
  /\ result second = Abrupt (ENOENT avatar_path)
  /\ disk_after second = meanwhile (always_rejects network_error) (disk_after first).
Proof.
  assert (Hin : avatar_path ∈ meanwhile (always_rejects network_error) {[avatar_path]}).
  { cbn. apply elem_of_singleton. reflexivity. }
  exact (retry_after_failed_upload_throws
           (always_rejects network_error) (always_rejects network_error)
           avatar_path {[avatar_path]} network_error eq_refl eq_refl Hin
           eq_refl (fun Hgone => Hgone)).
Defined.

(** ** The user model *)

Section HookMore.
Context `{Bcrypt}.

(** X7.  The pre-save hook calls [next] exactly once on either branch, and
    as the last thing it does: when it hashes, the hash call comes first. *)
Theorem pre_save_calls_next_once_and_last (this : user) :
  exists before,
    snd (pre_save this) = (before ++ [EvNext])%list
    /\ ~ In EvNext before
    /\ (before = [] \/ before = [EvHash (password this) 10]).
Proof.
  unfold pre_save. destruct (isModified this "password"); cbn.
  - exists [EvHash (password this) 10]. split; [reflexivity |].
    split; [| right; reflexivity]. intros [Hin | []]. discriminate Hin.
  - exists []. split; [reflexivity |]. split; [intros [] | left; reflexivity].
Qed.

End HookMore.

Section TokenMore.
Context `{Jwt}.

(** X9.  Each token method reads only its own two settings of the
    environment: two environments that agree on the access secret and
    expiry give the same access token, and two that agree on the refresh
    secret and expiry give the same refresh token, whatever else they
    hold. *)
Theorem tokens_read_only_their_own_settings (E1 E2 : ProcessEnv) (u : user) :
  (@process_env E1 "ACCESS_TOKEN_SECRET" = @process_env E2 "ACCESS_TOKEN_SECRET" ->
   @process_env E1 "ACCESS_TOKEN_EXPIRY" = @process_env E2 "ACCESS_TOKEN_EXPIRY" ->
   @generateAccessToken _ E1 u = @generateAccessToken _ E2 u)
  /\ (@process_env E1 "REFRESH_TOKEN_SECRET" = @process_env E2 "REFRESH_TOKEN_SECRET" ->
      @process_env E1 "REFRESH_TOKEN_EXPIRY" = @process_env E2 "REFRESH_TOKEN_EXPIRY" ->
      @generateRefreshToken _ E1 u = @generateRefreshToken _ E2 u).
Proof.
  split; intros Hs He.
  - unfold generateAccessToken. rewrite Hs, He. reflexivity.
  - unfold generateRefreshToken. rewrite Hs, He. reflexivity.
Qed.

End TokenMore.

Section CompareFacts.
Context `{Bcrypt} `{BcryptCompare}.

(** X10.  Saving a user with a new password and then checking that very
    password: even with a bcrypt whose comparison accepts the hash it made,
    the promise of [isPasswordCorrect] resolves to [undefined], a falsy
    value; the match is only the return value of the callback, which nobody
    reads. *)
Theorem isPasswordCorrect_resolves_undefined_on_a_match (this : user) :
  isModified this "password" = true ->
  bcrypt_compare (password this) (bcrypt_hash (password this) 10) = Compared true ->
  let saved := fst (pre_save this) in
  let call := isPasswordCorrect saved (password this) in
  returned call = JUndefined
  /\ truthy (returned call) = false
  /\ callback call = CbReturned (JBool true).
Proof.
  intros Hm Hok saved call. subst saved call.
  rewrite (pre_save_modified this Hm). cbn [fst].
  unfold isPasswordCorrect, compare_with_callback. cbn.
  rewrite Hok. cbn. repeat split.
Qed.

End CompareFacts.

Lemma isPasswordCorrect_resolves_undefined_on_a_match_alice :
  let call := @isPasswordCorrect toy_compare (fst (@pre_save toy_bcrypt alice)) "hunter22" in
  returned call = JUndefined
  /\ truthy (returned call) = false
  /\ callback call = CbReturned (JBool true).
Proof.
  assert (Hm : isModified alice "password" = true) by (vm_compute; reflexivity).
  exact (@isPasswordCorrect_resolves_undefined_on_a_match toy_bcrypt toy_compare
           alice Hm eq_refl).
Defined.

Example access_token_survives_refresh_rotation :
  @generateAccessToken toy_jwt rotated_env alice = @generateAccessToken toy_jwt toy_env alice.
Proof.
  apply (proj1 (@tokens_read_only_their_own_settings toy_jwt rotated_env toy_env alice));
    reflexivity.
Qed.

(** ** The multer storage *)

(** X11.  The staged path is the fixed upload folder joined with the name
    of the form field: it depends on neither the request nor the original
    file name nor the type, so two files sent under the same field are
    staged at one and the same path. *)
Theorem staged_path_depends_only_on_field_name
    (join : string -> string -> string) (req1 req2 : jsval) (f1 f2 : Multer.file) :
  Multer.fieldname f1 = Multer.fieldname f2 ->
  Multer.staged_path join req1 f1 = Some (join "./public/uploads/temp" (Multer.fieldname f1))
  /\ Multer.staged_path join req1 f1 = Multer.staged_path join req2 f2.
Proof.
  intros Hfield. unfold Multer.staged_path, Multer.destination, Multer.filename.
  cbn. rewrite Hfield. split; reflexivity.
Qed.

Lemma staged_path_depends_only_on_field_name_avatars :
  Multer.staged_path slash_join JNull avatar_png = Some "./public/uploads/temp/avatar"
  /\ Multer.staged_path slash_join JNull avatar_png
     = Multer.staged_path slash_join (JObj [("ip", JStr "10.0.0.7")]) avatar_jpg.
Proof.
  exact (staged_path_depends_only_on_field_name slash_join JNull
           (JObj [("ip", JStr "10.0.0.7")]) avatar_png avatar_jpg eq_refl).
Defined.

(** ** Server start-up *)

Section StartupFacts.
Import Startup.

Lemma js_or_truthy (a b : jsval) : truthy b = true -> truthy (js_or a b) = true.
Proof. intros Hb. unfold js_or. destruct (truthy a) eqn:Ha; assumption. Qed.

(** X12.  Once the database is connected the server is asked to listen
    exactly once, on a port that is never empty or undefined: the PORT
    setting when it is set and not the empty string, the number 8000
    otherwise. *)
Theorem main_listens_on_PORT_or_8000 (w : world) :
  connectDB w = Connected ->
  exists port rest,
    main w = EvListen port :: rest
    /\ (forall q, ~ In (EvListen q) rest)
    /\ truthy port = true
    /\ (forall s, env w "PORT" = Some s -> s <> "" -> port = JStr s)
    /\ (env w "PORT" = None \/ env w "PORT" = Some "" -> port = JNum 8000).
Proof.
  intros Hdb. unfold main. rewrite Hdb.
  exists (js_or (process_env_get w "PORT") (JNum 8000)).
  exists (match listen w (js_or (process_env_get w "PORT") (JNum 8000)) with
          | Listening =>
              [EvLog [JStr ("Server is running on port " ++ template_env w "PORT")]]
          | ListenThrows err => [EvLog [JStr "MONGODB CONNECTION ERROR:"; err]]
          | ListenSilent => []
          end).
  split; [destruct (listen w _); reflexivity |].
  split.
  { intros q; destruct (listen w _); cbn; intros Hin;
      repeat (destruct Hin as [Hin | Hin]; [discriminate Hin |]); exact Hin. }
  split; [apply js_or_truthy; reflexivity |].
  unfold js_or, process_env_get. split.
  - intros s Hs Hne. rewrite Hs. cbn.
    destruct (String.eqb s "") eqn:Heq; [| reflexivity].
    apply String.eqb_eq in Heq. contradiction.
  - intros [Hs | Hs]; rewrite Hs; reflexivity.
Qed.

(** X13.  With PORT unset, a server that does start listens on 8000 while
    the line it logs names the port "undefined": the message reads the
    setting, not the port that was used. *)
Theorem main_logs_undefined_port_when_PORT_unset (w : world) :
  connectDB w = Connected ->
  env w "PORT" = None ->
  listen w (JNum 8000) = Listening ->
  main w = [EvListen (JNum 8000);
            EvLog [JStr "Server is running on port undefined"]].
Proof.
  intros Hdb Hport Hlisten. unfold main, js_or, process_env_get, template_env.
  rewrite Hdb, Hport. cbn. rewrite Hlisten. reflexivity.
Qed.

(** X14.  The line "MONGODB CONNECTION ERROR:" is logged exactly when the
    database connection failed, or when it succeeded and [app.listen] threw:
    an error of the HTTP server is reported under the database's name.  And
    the server is never asked to listen unless the database is connected. *)
Theorem main_reports_listen_errors_as_database_errors (w : world) (err : jsval) :
  (In (EvLog [JStr "MONGODB CONNECTION ERROR:"; err]) (main w) <->
     connectDB w = ConnectFailed err
     \/ (connectDB w = Connected
         /\ listen w (js_or (process_env_get w "PORT") (JNum 8000)) = ListenThrows err))
  /\ (forall port, In (EvListen port) (main w) -> connectDB w = Connected).
Proof.
  unfold main. destruct (connectDB w) as [|dberr].
  - split; [| intros; reflexivity].
    destruct (listen w _) as [|lerr|]; cbn; split.
    + intros [Hin | [Hin | []]]; discriminate Hin.
    + intros [Hdb | [_ Hl]]; discriminate.
    + intros [Hin | [Hin | []]]; [discriminate Hin |].
      injection Hin as ->. right. split; reflexivity.
    + intros [Hdb | [_ Hl]]; [discriminate Hdb |].
      injection Hl as ->. right. left. reflexivity.
    + intros [Hin | []]. discriminate Hin.
    + intros [Hdb | [_ Hl]]; discriminate.
  - split.
    + cbn. split.
      * intros [Hin | []]. injection Hin as ->. left. reflexivity.
      * intros [Hdb | [Hdb _]]; [| discriminate Hdb].
        injection Hdb as ->. left. reflexivity.
    + intros port [Hin | []]. discriminate Hin.
Qed.

End StartupFacts.

Lemma main_listens_on_PORT_or_8000_port_3000 :
  exists port rest,
    Startup.main port_3000 = Startup.EvListen port :: rest
    /\ (forall q, ~ In (Startup.EvListen q) rest)
    /\ truthy port = true
    /\ (forall s, Startup.env port_3000 "PORT" = Some s -> s <> "" -> port = JStr s)
    /\ (Startup.env port_3000 "PORT" = None \/ Startup.env port_3000 "PORT" = Some ""
        -> port = JNum 8000).
Proof. exact (main_listens_on_PORT_or_8000 port_3000 eq_refl). Defined.

Lemma main_logs_undefined_port_when_PORT_unset_no_port :
  Startup.main no_port
  = [Startup.EvListen (JNum 8000);
     Startup.EvLog [JStr "Server is running on port undefined"]].
Proof.
  exact (main_logs_undefined_port_when_PORT_unset no_port eq_refl eq_refl eq_refl).
Defined.

Example main_port_3000 :
  Startup.main port_3000
  = [Startup.EvListen (JStr "3000"); Startup.EvLog [JStr "Server is running on port 3000"]].
Proof. reflexivity. Qed.

Example main_bad_port :
  Startup.main bad_port
  = [Startup.EvListen (JStr "http");
     Startup.EvLog [JStr "MONGODB CONNECTION ERROR:"; JStr "ERR_SOCKET_BAD_PORT"]].
Proof. reflexivity. Qed.

Example main_db_down :
  Startup.main db_down
  = [Startup.EvLog [JStr "MONGODB CONNECTION ERROR:"; JStr "ECONNREFUSED"]].
Proof. reflexivity. Qed.

(** ** The hand-off over any file system *)

Lemma uploadToCloudinary_with_unlinkSync (cloud : remote) (p : jsval) :
  uploadToCloudinary_with unlinkSync cloud p = uploadToCloudinary cloud p.
Proof. reflexivity. Qed.

Section HandoffAnyFs.
Variable fs_unlinkSync : jsval -> M unit.
Variable cloud : remote.

Lemma run_with_falsy p d :
  truthy p = false ->
  uploadToCloudinary_with fs_unlinkSync cloud p d =
    {| result := Normal JNull; disk_after := d; events := [] |}.
Proof. intros Hp. unfold uploadToCloudinary_with. rewrite Hp. reflexivity. Qed.

Lemma run_with_skip p d :
  truthy p = true ->
  enters_catch cloud p d = false ->
  disk_after (uploadToCloudinary_with fs_unlinkSync cloud p d) = meanwhile cloud d
  /\ exists response, result (uploadToCloudinary_with fs_unlinkSync cloud p d) = Normal response.
Proof.
  intros Hp Hc. unfold enters_catch, upload_settles in Hc.
  unfold uploadToCloudinary_with. rewrite Hp. cbn [negb].
  unfold try_catch, bind, uploader_upload. cbn [result disk_after events].
  destruct (upload cloud p upload_options d) as [response|reason]; [| discriminate Hc].
  destruct response; try discriminate Hc; cbn; (split; [reflexivity | eexists; reflexivity]).
Qed.

Lemma run_with_catch p d :
  truthy p = true ->
  enters_catch cloud p d = true ->
  result (uploadToCloudinary_with fs_unlinkSync cloud p d) =
    match result (fs_unlinkSync p (meanwhile cloud d)) with
    | Normal _ => Normal JNull
    | Abrupt e => Abrupt e
    end
  /\ disk_after (uploadToCloudinary_with fs_unlinkSync cloud p d) =
       disk_after (fs_unlinkSync p (meanwhile cloud d)).
Proof.
  intros Hp Hc. unfold enters_catch, upload_settles in Hc.
  unfold uploadToCloudinary_with. rewrite Hp. cbn [negb].
  unfold try_catch, bind, uploader_upload. cbn [result disk_after events].
  destruct (upload cloud p upload_options d) as [response|reason].
  - destruct response; try discriminate Hc; cbn;
      destruct (fs_unlinkSync p (meanwhile cloud d)) as [[u|e] d' evs];
      cbn; split; reflexivity.
  - cbn. destruct (fs_unlinkSync p (meanwhile cloud d)) as [[u|e] d' evs];
      cbn; split; reflexivity.
Qed.

(** X1.  An invocation on a non-empty path changes the local disk only
    through its one [fs.unlinkSync] call on the path it was given, whatever
    that call does: afterwards the disk is the one that call left when the
    catch block was entered, and otherwise the disk as the upload left it.
    So every file that [fs.unlinkSync] of this path leaves alone is left
    alone by the invocation, and the invocation creates none. *)
Theorem handoff_touches_only_its_own_path
    (p : jsval) (d : gset string) (untouched : string -> Prop) :
  truthy p = true ->
  (forall d' q, untouched q -> (q ∈ disk_after (fs_unlinkSync p d') <-> q ∈ d')) ->
  let o := uploadToCloudinary_with fs_unlinkSync cloud p d in
  (forall q, untouched q -> (q ∈ disk_after o <-> q ∈ meanwhile cloud d))
  /\ disk_after o =
       (if enters_catch cloud p d
        then disk_after (fs_unlinkSync p (meanwhile cloud d))
        else meanwhile cloud d).
Proof.
  intros Hp Hframe o. subst o.
  destruct (enters_catch cloud p d) eqn:Hc.
  - destruct (run_with_catch p d Hp Hc) as [_ Hdisk]. rewrite Hdisk.
    split; [| reflexivity]. intros q Hq. apply Hframe. exact Hq.
  - destruct (run_with_skip p d Hp Hc) as [Hdisk _]. rewrite Hdisk.
    split; [| reflexivity]. intros q Hq. reflexivity.
Qed.

(** X5.  Whatever [fs.unlinkSync] may throw, an invocation throws exactly
    when its catch block is entered and the deletion there throws, and what
    it throws is the deletion's error: the reason of a rejected upload and
    the TypeError of reading [.url] never reach the caller. *)
Theorem handoff_throws_only_deletion_errors (p : jsval) (d : gset string) (e : exn) :
  result (uploadToCloudinary_with fs_unlinkSync cloud p d) = Abrupt e <->
  truthy p = true
  /\ enters_catch cloud p d = true
  /\ result (fs_unlinkSync p (meanwhile cloud d)) = Abrupt e.
Proof.
  split.
  - intros Hres. destruct (truthy p) eqn:Hp.
    + destruct (enters_catch cloud p d) eqn:Hc.
      * destruct (run_with_catch p d Hp Hc) as [Hr _]. rewrite Hr in Hres.
        destruct (result (fs_unlinkSync p (meanwhile cloud d))) as [u|e'];
          [discriminate Hres |].
        injection Hres as ->. repeat split.
      * destruct (run_with_skip p d Hp Hc) as [_ [response Hr]].
        rewrite Hr in Hres. discriminate Hres.
    + rewrite (run_with_falsy p d Hp) in Hres. discriminate Hres.
  - intros (Hp & Hc & Hu).
    destruct (run_with_catch p d Hp Hc) as [Hr _]. rewrite Hr, Hu. reflexivity.
Qed.

End HandoffAnyFs.

Lemma handoff_touches_only_its_own_path_other_file :
  let d : gset string := {[avatar_path]} ∪ {[other_file]} in
  let o := uploadToCloudinary_with unlinkSync (always_rejects network_error)
                                   (JStr avatar_path) d in
  (forall q, q = other_file ->
     (q ∈ disk_after o <-> q ∈ meanwhile (always_rejects network_error) d))
  /\ disk_after o =
       (if enters_catch (always_rejects network_error) (JStr avatar_path) d
        then disk_after (unlinkSync (JStr avatar_path)
                                    (meanwhile (always_rejects network_error) d))
        else meanwhile (always_rejects network_error) d).
Proof.
  intros d.
  assert (Hframe : forall d' q, q = other_file ->
            (q ∈ disk_after (unlinkSync (JStr avatar_path) d') <-> q ∈ d')).
  { intros d' q ->. apply unlinkSync_disk. discriminate. }
  exact (handoff_touches_only_its_own_path unlinkSync (always_rejects network_error)
           (JStr avatar_path) d (fun q => q = other_file) eq_refl Hframe).
Defined.

(** ** What the token methods sign *)


